(** * Canada Home Affordability Calculator: the affordability engine

    A shallow embedding of the two Streamlit scripts [app.py] and [app2.py]:
    the regional rule table [REGIONS], the mortgage calculator
    [calculate_max_affordable], the log-normal helpers [lognorm_pdf] and
    [lognorm_cdf], and the loop that builds the regional comparison table.

    Number model.  The scripts compute with Python floats (binary64).  The
    embedding takes the arithmetic as exact: the mortgage calculator, which
    only adds, subtracts, multiplies, divides and raises to an integer power,
    is a function on the rationals [Q] and can be run; the distribution
    helpers, which call [np.log], [np.exp], [np.tanh] and [np.sqrt], are
    functions on the reals [R].  Rounding and overflow are not modelled.  What
    is modelled is the way these expressions fail in Python on every input,
    however small: a float division by zero (and a zero base raised to a
    negative power) raises [ZeroDivisionError].  The numpy calls raise nothing.

    The widgets, the drawing of the charts and the formatting of the numbers
    are left out. *)

From Stdlib Require Import QArith Qpower Qreals ZArith Lia Lqa List String Bool.
From Stdlib Require Import Reals Lra.
Import ListNotations.

(** [lra] over the rationals and over the reals. *)
Ltac qlra := Lqa.lra.
Ltac rlra := Lra.lra.
Ltac rnra := Lra.nra.

(** ** Python arithmetic that can raise *)

Module Py.

Inductive exn : Type :=
| ZeroDivisionError.

Inductive result (A : Type) : Type :=
| Ok (a : A)
| Raise (e : exn).
Arguments Ok {A} a.
Arguments Raise {A} e.

Definition bind {A B : Type} (c : result A) (k : A -> result B) : result B :=
  match c with
  | Ok a => k a
  | Raise e => Raise e
  end.

Definition map {A B : Type} (f : A -> B) (c : result A) : result B :=
  match c with
  | Ok a => Ok (f a)
  | Raise e => Raise e
  end.


(** [x / y] on floats. *)
Definition truediv (x y : Q) : result Q :=
  if Qeq_bool y 0 then Raise ZeroDivisionError else Ok (x / y)%Q.

(** [x ** n] for a float [x] and an int [n]. *)
Definition pow (x : Q) (n : Z) : result Q :=
  if Qeq_bool x 0 && (n <? 0)%Z then Raise ZeroDivisionError
  else Ok (x ^ n)%Q.

(** Two outcomes agree: the same exception, or values equal as rationals. *)
Definition agree (c1 c2 : result Q) : Prop :=
  match c1, c2 with
  | Ok a, Ok b => (a == b)%Q
  | Raise e1, Raise e2 => e1 = e2
  | _, _ => False
  end.

End Py.

Declare Scope py_scope.
Delimit Scope py_scope with py.
Notation "x <- c ;; k" := (Py.bind c (fun x => k))
  (at level 61, c at next level, right associativity) : py_scope.

(** ** Data shared by the two scripts *)

(** The rule of one region, a value of the [REGIONS] dict. *)
Record region_data : Type := mk_region {
  down_payment : Q;
  rate : Q;
  first_time : Q;
  pop : Z;
  incentive : Q
}.

(** One dict appended to the comparison list, before its numbers are
    formatted for display.  The keys are "Region", "Min Income Needed" (app.py)
    or "Min Income" (app2.py), "Can Afford", and "% Population" (app.py) or
    "% of Pop" (app2.py). *)
Record comparison_row : Type := mk_row {
  Region : string;
  Min_Income : Q;
  Can_Afford : R;
  Pct_Population : R
}.

(** ** Log-normal functions (the same text in both scripts)

    [np.log] of a non-positive number gives [nan] or [-inf] in numpy and [0]
    for [ln] here; the statements below only evaluate at positive incomes. *)

Definition mu : R := 10.45%R.
Definition sigma : R := 0.95%R.
Definition scale : R := exp mu.

Definition lognorm_pdf (x s scale : R) : R :=
  ((1 / (x * s * sqrt (2 * PI))) *
   exp (- ((ln x - ln scale) ^ 2) / (2 * s ^ 2)))%R.

Definition lognorm_cdf (x s scale : R) : R :=
  (let z := (ln x - ln scale) / s in
   0.5 * (1 + tanh (sqrt 2 * z / 2) + sqrt (2 / PI) * exp (- z ^ 2 / 2)))%R.

(** [prob_affordable = 1 - lognorm_cdf(max_income_needed, sigma, scale)] *)
Definition prob_affordable (income_needed : R) : R :=
  (1 - lognorm_cdf income_needed sigma scale)%R.

(** ** app.py *)

Module App.
Import Py.
Local Open Scope Q_scope.
Local Open Scope py_scope.

Definition REGIONS : list (string * region_data) :=
  [ ("Ontario"%string,  mk_region 0.05 0.045 0.05 15000000 0.95);
    ("BC"%string,       mk_region 0.05 0.048 0.05 5300000 0.90);
    ("Alberta"%string,  mk_region 0.05 0.042 0.05 4500000 1.00);
    ("Quebec"%string,   mk_region 0.05 0.043 0.03 9000000 1.00);
    ("National"%string, mk_region 0.05 0.045 0.05 20000000 0.95) ].

(** The locals of [calculate_max_affordable]. *)
Definition loan_of (price down_payment_pct : Q) : Q :=
  let down_payment := price * down_payment_pct in
  price - down_payment.

Definition monthly_rate_of (mortgage_rate : Q) : result Q :=
  truediv mortgage_rate 12.

Definition n_payments_of (amortization : Z) : Z := (amortization * 12)%Z.

(** [amortization=25] *)
Definition default_amortization : Z := 25.

Definition calculate_max_affordable
    (price down_payment_pct mortgage_rate : Q) (amortization : Z) : result Q :=
  let loan := loan_of price down_payment_pct in
  monthly_rate <- monthly_rate_of mortgage_rate ;;
  let n_payments := n_payments_of amortization in
  growth <- pow (1 + monthly_rate) n_payments ;;
  growth' <- pow (1 + monthly_rate) n_payments ;;
  monthly_payment <- truediv (loan * (monthly_rate * growth)) (growth' - 1) ;;
  annual_income_needed <- truediv (monthly_payment * 12) 0.28 ;;
  Ok annual_income_needed.

(** The body of [for region, data in REGIONS.items()], run on the items that
    are left, with the list built so far. *)
Fixpoint comparison_loop (items : list (string * region_data)) (home_price : Q)
    (comparison_data : list comparison_row) : result (list comparison_row) :=
  match items with
  | [] => Ok comparison_data
  | (region, data) :: rest =>
      income_needed <- calculate_max_affordable home_price (first_time data)
                         (rate data) default_amortization ;;
      let prob := prob_affordable (Q2R income_needed) in
      comparison_loop rest home_price
        (comparison_data ++
           [mk_row region income_needed (prob * IZR (pop data))%R (prob * 100)%R])
  end.

Definition comparison_data (home_price : Q) : result (list comparison_row) :=
  comparison_loop REGIONS home_price [].

End App.

(** ** app2.py *)

Module App2.
Import Py.
Local Open Scope Q_scope.
Local Open Scope py_scope.

Definition REGIONS : list (string * region_data) :=
  [ ("🇨🇦 National"%string, mk_region 0.05 0.045 0.05 20000000 0.95);
    ("🇴🇳 Ontario"%string,  mk_region 0.05 0.047 0.05 15000000 0.93);
    ("🇧🇨 BC"%string,       mk_region 0.05 0.049 0.05 5300000 0.90);
    ("🇦🇧 Alberta"%string,  mk_region 0.05 0.043 0.05 4500000 1.00);
    ("🇶🇨 Quebec"%string,   mk_region 0.05 0.044 0.03 9000000 1.00);
    ("🇲🇦 Manitoba"%string, mk_region 0.05 0.042 0.05 1400000 1.00) ].

Definition default_amortization : Z := 25.

Definition calculate_max_affordable
    (price down_payment_pct mortgage_rate : Q) (amortization : Z)
    : result (Q * Q) :=
  let down_payment := price * down_payment_pct in
  let loan := price - down_payment in
  monthly_rate <- truediv mortgage_rate 12 ;;
  let n_payments := (amortization * 12)%Z in
  growth <- pow (1 + monthly_rate) n_payments ;;
  growth' <- pow (1 + monthly_rate) n_payments ;;
  monthly_payment <- truediv (loan * (monthly_rate * growth)) (growth' - 1) ;;
  annual_income_needed <- truediv (monthly_payment * 12) 0.28 ;;
  Ok (annual_income_needed, down_payment).

Fixpoint comparison_loop (items : list (string * region_data)) (home_price : Q)
    (comparison : list comparison_row) : result (list comparison_row) :=
  match items with
  | [] => Ok comparison
  | (region_name, data) :: rest =>
      res <- calculate_max_affordable home_price (first_time data)
               (rate data) default_amortization ;;
      let income_needed := fst res in
      let prob := prob_affordable (Q2R income_needed) in
      comparison_loop rest home_price
        (comparison ++
           [mk_row region_name income_needed (prob * IZR (pop data))%R
              (prob * 100)%R])
  end.

Definition comparison (home_price : Q) : result (list comparison_row) :=
  comparison_loop REGIONS home_price [].

End App2.

(** ** The affordability engine as the specification words it *)

Module Spec.
Local Open Scope Q_scope.




(** The closed form the specification gives for a zero rate. *)
Definition straightLineIncome (price d : Q) (years : Z) : Q :=
  price * (1 - d) / inject_Z years * 12 / 0.28.

End Spec.

(** ** Quantities the proofs name *)

(** [(1 + monthly_rate) ** n_payments] *)
Definition growth (r : Q) (a : Z) : Q := ((1 + r / 12) ^ (a * 12))%Q.

(** The value of [annual_income_needed] when no division raises. *)
Definition income_formula (price d r : Q) (a : Z) : Q :=
  (App.loan_of price d * (r / 12 * growth r a) / (growth r a - 1) * 12 / 0.28)%Q.

(** Income needed per unit of loan. *)
Definition income_factor (r : Q) (a : Z) : Q :=
  (r / 12 * growth r a / (growth r a - 1) * 12 / 0.28)%Q.

(** The income [k] shape parameters above the median on the log scale. *)
Definition income_at (k : R) : R := exp (mu + sigma * k)%R.

(** Every rule of a table has a positive rate. *)
Definition rates_positive (table : list (string * region_data)) : Prop :=
  Forall (fun item => (0 < rate (snd item))%Q) table.

(** ** The rest of the scripts: region lookup, the results panel, the grid *)

(** What stops a run of the page: a missing dict key, or an exception of the
    mortgage calculator. *)
Inductive script_exn : Type :=
| KeyError (key : string)
| CalcError (e : Py.exn).

Inductive outcome (A : Type) : Type :=
| Shown (a : A)
| Stopped (e : script_exn).
Arguments Shown {A} a.
Arguments Stopped {A} e.

(** [REGIONS[region]] *)
Fixpoint getitem (table : list (string * region_data)) (key : string)
    : option region_data :=
  match table with
  | [] => None
  | (k, v) :: rest => if String.eqb key k then Some v else getitem rest key
  end.

(** [list(REGIONS.keys())], the choices of the region select box. *)
Definition keys (table : list (string * region_data)) : list string :=
  List.map fst table.

(** The numbers behind the metrics of the results panel. *)
Record affordability : Type := mk_affordability {
  max_income_needed : Q;
  down_payment_amount : Q;
  prob_shown : R;
  people_affordable : R;
  percent_affordable : R
}.

(** [np.linspace(start, stop, num)], with the end point. *)
Definition linspace (start stop : Q) (num : nat) : list Q :=
  match num with
  | O => []
  | S O => [start]
  | S div =>
      let step := ((stop - start) / inject_Z (Z.of_nat div))%Q in
      List.map (fun i => (inject_Z (Z.of_nat i) * step + start)%Q) (seq 0 div)
      ++ [stop]
  end.

(** [np.max] of a one-dimensional array; it raises on an empty one. *)
Definition np_max (l : list R) : option R :=
  match l with
  | [] => None
  | x :: rest => Some (fold_left Rmax rest x)
  end.

(** [pdf / np.max(pdf) * height] *)
Definition scale_to_peak (pdf : list R) (height : R) : option (list R) :=
  match np_max pdf with
  | None => None
  | Some m => Some (List.map (fun p => (p / m * height)%R) pdf)
  end.

(** [prob = lognorm_cdf(max_income, sigma, scale) - lognorm_cdf(min_income,
    sigma, scale)], the share of the income-range tab of app.py. *)
Definition range_prob (min_income max_income : R) : R :=
  (lognorm_cdf max_income sigma scale - lognorm_cdf min_income sigma scale)%R.

Module AppPage.
Import Py.
Local Open Scope Q_scope.

Definition income_range : list Q := linspace 1 300000 1000.

Definition pdf : list R :=
  List.map (fun x => lognorm_pdf (Q2R x) sigma scale) income_range.

Definition cdf : list R :=
  List.map (fun x => lognorm_cdf (Q2R x) sigma scale) income_range.

Definition density_scaled : option (list R) := scale_to_peak pdf 30.

(** The "Home Details" and "Results" columns. *)
Definition home_affordability (home_price : Q) (region : string)
    (first_time_buyer : bool) : outcome affordability :=
  match getitem App.REGIONS region with
  | None => Stopped (KeyError region)
  | Some region_data =>
      let down_payment_pct :=
        if first_time_buyer then first_time region_data
        else down_payment region_data in
      let mortgage_rate := rate region_data in
      let total_pop := pop region_data in
      match App.calculate_max_affordable home_price down_payment_pct
              mortgage_rate App.default_amortization with
      | Raise e => Stopped (CalcError e)
      | Ok max_income_needed =>
          let prob_affordable := prob_affordable (Q2R max_income_needed) in
          Shown (mk_affordability max_income_needed
                   (home_price * down_payment_pct)
                   prob_affordable
                   (prob_affordable * IZR total_pop)%R
                   (prob_affordable * 100)%R)
      end
  end.

(** The row the comparison loop appends for one item of [REGIONS]. *)
Definition row_of (home_price : Q) (item : string * region_data)
    : comparison_row :=
  let income_needed :=
    income_formula home_price (first_time (snd item)) (rate (snd item))
      App.default_amortization in
  let prob := prob_affordable (Q2R income_needed) in
  mk_row (fst item) income_needed (prob * IZR (pop (snd item)))%R
    (prob * 100)%R.

End AppPage.

Module App2Page.
Import Py.
Local Open Scope Q_scope.

Definition income_range : list Q := linspace 1 400000 1000.

Definition pdf : list R :=
  List.map (fun x => lognorm_pdf (Q2R x) sigma scale) income_range.

Definition density_scaled : option (list R) := scale_to_peak pdf 40.

(** The main calculator of the page. *)
Definition home_affordability (home_price : Q) (region : string)
    (first_time_buyer : bool) : outcome affordability :=
  match getitem App2.REGIONS region with
  | None => Stopped (KeyError region)
  | Some region_data =>
      let down_payment_pct :=
        if first_time_buyer then first_time region_data
        else down_payment region_data in
      let mortgage_rate := rate region_data in
      let total_pop := pop region_data in
      match App2.calculate_max_affordable home_price down_payment_pct
              mortgage_rate App2.default_amortization with
      | Raise e => Stopped (CalcError e)
      | Ok (max_income, down_payment) =>
          let prob_affordable := prob_affordable (Q2R max_income) in
          Shown (mk_affordability max_income down_payment
                   prob_affordable
                   (prob_affordable * IZR total_pop)%R
                   (prob_affordable * 100)%R)
      end
  end.

End App2Page.

(** ** Quantities the later proofs name *)


(** A rule the page can work with: a positive rate, fractions below 1, a
    positive population. *)
Definition rule_valid (data : region_data) : Prop :=
  (0 < rate data /\ 0 <= first_time data <= down_payment data /\
   down_payment data < 1)%Q /\ (0 < pop data)%Z.

Definition rules_valid (table : list (string * region_data)) : Prop :=
  Forall (fun item => rule_valid (snd item)) table.

(** The results panel over an arbitrary rule table, as app.py computes it. *)
Definition results_for (table : list (string * region_data)) (home_price : Q)
    (region : string) (first_time_buyer : bool) : outcome affordability :=
  match getitem table region with
  | None => Stopped (KeyError region)
  | Some data =>
      let pct := if first_time_buyer then first_time data
                 else down_payment data in
      match App.calculate_max_affordable home_price pct (rate data) 25 with
      | Py.Raise e => Stopped (CalcError e)
      | Py.Ok income =>
          let prob := prob_affordable (Q2R income) in
          Shown (mk_affordability income (home_price * pct)%Q prob
                   (prob * IZR (pop data))%R (prob * 100)%R)
      end
  end.

(** What the panel promises for a rule [data]: a positive income needed, the
    down payment of the chosen fraction, fewer people than the population and
    less than 100 percent. *)
Definition panel_ok (home_price : Q) (data : region_data)
    (first_time_buyer : bool) (res : affordability) : Prop :=
  (0 < max_income_needed res)%Q /\
  (down_payment_amount res ==
   home_price * (if first_time_buyer then first_time data
                 else down_payment data))%Q /\
  (people_affordable res < IZR (pop data))%R /\
  (percent_affordable res < 100)%R.

(** A comparison row carries the numbers of a results panel. *)
Definition row_matches (row : comparison_row) (res : affordability) : Prop :=
  Min_Income row = max_income_needed res /\
  Can_Afford row = people_affordable res /\
  Pct_Population row = percent_affordable res.

(** ** Facts about the Python primitives *)

Section PyFacts.
Import Py.
Local Open Scope Q_scope.

Lemma truediv_ok (x y : Q) : ~ y == 0 -> truediv x y = Ok (x / y).
Proof.
  intros Hy. unfold truediv.
  destruct (Qeq_bool y 0) eqn:E; [|reflexivity].
  apply Qeq_bool_iff in E. contradiction.
Qed.

Lemma truediv_raise (x y : Q) : y == 0 -> truediv x y = Raise ZeroDivisionError.
Proof.
  intros Hy. unfold truediv.
  apply Qeq_bool_iff in Hy. now rewrite Hy.
Qed.

Lemma pow_ok (x : Q) (n : Z) : ~ x == 0 -> pow x n = Ok (x ^ n).
Proof.
  intros Hx. unfold pow.
  destruct (Qeq_bool x 0) eqn:E; [|reflexivity].
  apply Qeq_bool_iff in E. contradiction.
Qed.


End PyFacts.

(** ** The growth factor [(1 + monthly_rate) ** n_payments] *)

Section Growth.
Local Open Scope Q_scope.

Lemma monthly_base_gt_1 (r : Q) : 0 < r -> 1 < 1 + r / 12.
Proof.
  intros Hr.
  assert (0 < r / 12) by (apply Qlt_shift_div_l; qlra).
  qlra.
Qed.

Lemma growth_gt_1 (r : Q) (a : Z) : 0 < r -> (0 < a)%Z -> 1 < growth r a.
Proof.
  intros Hr Ha. unfold growth.
  apply Qpower_1_lt; [now apply monthly_base_gt_1 | lia].
Qed.



Lemma growth_zero_rate (a : Z) : growth 0 a == 1.
Proof.
  unfold growth.
  assert (E : 1 + 0 / 12 == 1) by reflexivity.
  rewrite E. apply Qpower_1.
Qed.

End Growth.

(** ** What [calculate_max_affordable] returns, and when it raises *)

Section Calculator.
Import Py.
Local Open Scope Q_scope.

Lemma twelve_neq_0 : ~ 12 == 0.
Proof. discriminate. Qed.

Lemma ratio_neq_0 : ~ 0.28 == 0.
Proof. discriminate. Qed.

Lemma calculate_ok (price d r : Q) (a : Z) :
  ~ 1 + r / 12 == 0 -> ~ growth r a - 1 == 0 ->
  App.calculate_max_affordable price d r a = Ok (income_formula price d r a).
Proof.
  intros Hb Hg. unfold App.calculate_max_affordable, App.n_payments_of, App.monthly_rate_of.
  rewrite (truediv_ok _ _ twelve_neq_0). cbn [bind].
  rewrite (pow_ok _ _ Hb). cbn [bind].
  fold (growth r a).
  rewrite (truediv_ok _ _ Hg). cbn [bind].
  rewrite (truediv_ok _ _ ratio_neq_0). cbn [bind].
  reflexivity.
Qed.

Lemma calculate_raise (price d r : Q) (a : Z) :
  ~ 1 + r / 12 == 0 -> growth r a - 1 == 0 ->
  App.calculate_max_affordable price d r a = Raise ZeroDivisionError.
Proof.
  intros Hb Hg. unfold App.calculate_max_affordable, App.n_payments_of, App.monthly_rate_of.
  rewrite (truediv_ok _ _ twelve_neq_0). cbn [bind].
  rewrite (pow_ok _ _ Hb). cbn [bind].
  fold (growth r a).
  rewrite (truediv_raise _ _ Hg). reflexivity.
Qed.


Lemma income_formula_factor (price d r : Q) (a : Z) :
  ~ growth r a - 1 == 0 ->
  income_formula price d r a == App.loan_of price d * income_factor r a.
Proof.
  intros Hg. unfold income_formula, income_factor. field. exact Hg.
Qed.


Lemma income_factor_pos (r : Q) (a : Z) :
  0 < r -> (0 < a)%Z -> 0 < income_factor r a.
Proof.
  intros Hr Ha. unfold income_factor.
  pose proof (growth_gt_1 r a Hr Ha) as Hg.
  assert (Hm : 0 < r / 12) by (apply Qlt_shift_div_l; qlra).
  assert (Hn : 0 < r / 12 * growth r a) by (apply Qmult_lt_0_compat; qlra).
  assert (Hq : 0 < r / 12 * growth r a / (growth r a - 1)).
  { apply Qlt_shift_div_l; qlra. }
  apply Qlt_shift_div_l; qlra.
Qed.


(** With a positive rate and a positive number of years nothing raises. *)
Lemma calculate_positive (price d r : Q) (a : Z) :
  0 < r -> (0 < a)%Z ->
  App.calculate_max_affordable price d r a = Ok (income_formula price d r a).
Proof.
  intros Hr Ha. apply calculate_ok.
  - pose proof (monthly_base_gt_1 r Hr). qlra.
  - pose proof (growth_gt_1 r a Hr Ha). qlra.
Qed.

(** The two scripts run the same computation. *)
Lemma app2_as_app (price d r : Q) (a : Z) :
  App2.calculate_max_affordable price d r a =
  map (fun v => (v, price * d)) (App.calculate_max_affordable price d r a).
Proof.
  unfold App2.calculate_max_affordable, App.calculate_max_affordable,
    App.n_payments_of, App.loan_of, App.monthly_rate_of.
  destruct (truediv r 12) as [m|e]; cbn [bind map]; [|reflexivity].
  destruct (pow (1 + m) (a * 12)) as [g|e]; cbn [bind map]; [|reflexivity].
  destruct (truediv _ (g - 1)) as [p|e]; cbn [bind map]; [|reflexivity].
  destruct (truediv (p * 12) 0.28) as [i|e]; cbn [bind map]; reflexivity.
Qed.

End Calculator.

(** ** The mortgage calculator: formula, edge cases, monotonicity *)

Section CalculatorClaims.
Import Py.
Local Open Scope Q_scope.



(** C4, as the claim states it, fails: with a zero rate the call on
    price 100000, d = 0.05 and 25 years raises [ZeroDivisionError]; it does not
    return the straight-line value of the specification. *)
Lemma zero_rate_not_straight_line :
  App.calculate_max_affordable 100000 0.05 0 25 = Raise ZeroDivisionError /\
  ~ agree (App.calculate_max_affordable 100000 0.05 0 25)
          (Ok (Spec.straightLineIncome 100000 0.05 25)).
Proof.
  assert (E : App.calculate_max_affordable 100000 0.05 0 25
              = Raise ZeroDivisionError) by (vm_compute; reflexivity).
  split; [exact E|]. rewrite E. simpl. tauto.
Qed.

(** C4, amended.  With annualRate = 0 the calculator has no special case: for
    every price, down-payment fraction and amortization, the division by
    (1+0)^n - 1 = 0 raises [ZeroDivisionError], in both scripts. *)
Theorem zero_rate_raises (price d : Q) (a : Z) :
  App.calculate_max_affordable price d 0 a = Raise ZeroDivisionError /\
  App2.calculate_max_affordable price d 0 a = Raise ZeroDivisionError.
Proof.
  assert (E : App.calculate_max_affordable price d 0 a
              = Raise ZeroDivisionError).
  { apply calculate_raise.
    - discriminate.
    - pose proof (growth_zero_rate a). qlra. }
  split; [exact E|]. rewrite app2_as_app, E. reflexivity.
Qed.




(** C6, as the claim states it, fails: for price 800000, d = 0.05, rate 0.045
    and 25 years the calculator returns more than 172000 * 1.005, so the
    result is not within 0.5% of the range 168000 to 172000. *)
Lemma scenario_800k_above_range :
  ~ (exists v, App.calculate_max_affordable 800000 0.05 0.045 25 = Ok v /\
               168000 * (1 - 0.005) <= v <= 172000 * (1 + 0.005)).
Proof.
  rewrite (calculate_positive 800000 0.05 0.045 25) by reflexivity.
  intros [v [E [_ Hv]]]. injection E as <-.
  assert (H : 172000 * (1 + 0.005) < income_formula 800000 0.05 0.045 25)
    by (vm_compute; reflexivity).
  qlra.
Qed.

(** C6, amended.  For price 800000, d = 0.05, rate 0.045 and 25 years the
    calculator computes loan = 760000, monthly rate = 0.00375 and 300
    payments, and returns a minimum annual income between 181042 and 181043. *)
Theorem scenario_800k :
  App.loan_of 800000 0.05 == 760000 /\
  agree (App.monthly_rate_of 0.045) (Ok 0.00375) /\
  App.n_payments_of 25 = 300%Z /\
  exists v, App.calculate_max_affordable 800000 0.05 0.045 25 = Ok v /\
            181042 < v < 181043.
Proof.
  split; [reflexivity|]. split; [reflexivity|]. split; [reflexivity|].
  exists (income_formula 800000 0.05 0.045 25).
  split; [apply calculate_positive; reflexivity|].
  split; vm_compute; reflexivity.
Qed.






(** C10.  On every input the calculator of app2.py does what the calculator
    of app.py does: it raises when that one raises, and otherwise returns the
    same annual income, paired with the down payment price * down_payment_pct. *)
Theorem mortgage_calculators_agree (price d r : Q) (a : Z) :
  App2.calculate_max_affordable price d r a =
  map (fun v => (v, price * d)) (App.calculate_max_affordable price d r a).
Proof.
  unfold App2.calculate_max_affordable, App.calculate_max_affordable,
    App.n_payments_of, App.loan_of, App.monthly_rate_of.
  destruct (truediv r 12) as [m|e]; cbn [bind map]; [|reflexivity].
  destruct (pow (1 + m) (a * 12)) as [g|e]; cbn [bind map]; [|reflexivity].
  destruct (truediv _ (g - 1)) as [p|e]; cbn [bind map]; [|reflexivity].
  destruct (truediv (p * 12) 0.28) as [i|e]; cbn [bind map]; reflexivity.
Qed.

End CalculatorClaims.

(** ** The regional comparison *)

Section Comparison.
Import Py.
Local Open Scope Q_scope.

Lemma app_comparison_loop_regions (items : list (string * region_data))
    (home_price : Q) (acc : list comparison_row) :
  rates_positive items ->
  exists rows, App.comparison_loop items home_price acc = Ok rows /\
               List.map Region rows = List.map Region acc ++ List.map fst items.
Proof.
  intros Hpos. revert acc.
  induction Hpos as [|[region data] rest Hr _ IH]; intros acc.
  - exists acc. split; [reflexivity|]. simpl. now rewrite app_nil_r.
  - cbn [App.comparison_loop]. simpl in Hr.
    rewrite (calculate_positive home_price (first_time data) (rate data)
               App.default_amortization Hr) by reflexivity.
    cbn [bind].
    match goal with
    | |- context [App.comparison_loop rest home_price ?acc'] =>
        destruct (IH acc') as [rows [E Hrows]]
    end.
    exists rows. split; [exact E|].
    rewrite Hrows, List.map_app. simpl. now rewrite <- app_assoc.
Qed.

Lemma app2_comparison_loop_regions (items : list (string * region_data))
    (home_price : Q) (acc : list comparison_row) :
  rates_positive items ->
  exists rows, App2.comparison_loop items home_price acc = Ok rows /\
               List.map Region rows = List.map Region acc ++ List.map fst items.
Proof.
  intros Hpos. revert acc.
  induction Hpos as [|[region data] rest Hr _ IH]; intros acc.
  - exists acc. split; [reflexivity|]. simpl. now rewrite app_nil_r.
  - cbn [App2.comparison_loop]. simpl in Hr.
    rewrite app2_as_app.
    rewrite (calculate_positive home_price (first_time data) (rate data)
               App2.default_amortization Hr) by reflexivity.
    cbn [bind map fst].
    match goal with
    | |- context [App2.comparison_loop rest home_price ?acc'] =>
        destruct (IH acc') as [rows [E Hrows]]
    end.
    exists rows. split; [exact E|].
    rewrite Hrows, List.map_app. simpl. now rewrite <- app_assoc.
Qed.

Lemma app_rates_positive : rates_positive App.REGIONS.
Proof. unfold rates_positive, App.REGIONS. repeat constructor. Qed.

Lemma app2_rates_positive : rates_positive App2.REGIONS.
Proof. unfold rates_positive, App2.REGIONS. repeat constructor. Qed.

Ltac nodup_strings :=
  repeat (constructor; [simpl; intuition discriminate|]); constructor.

Lemma app_regions_nodup : NoDup (List.map fst App.REGIONS).
Proof. unfold App.REGIONS. simpl. nodup_strings. Qed.

Lemma app2_regions_nodup : NoDup (List.map fst App2.REGIONS).
Proof. unfold App2.REGIONS. simpl. nodup_strings. Qed.

(** C9.  For every purchase price the comparison loop of each script ends
    without raising, and its rows carry the region identifiers of [REGIONS]
    exactly, one row per region in the table's order; no identifier is
    repeated. *)
Theorem comparison_one_row_per_region (home_price : Q) :
  (exists rows, App.comparison_data home_price = Ok rows /\
                List.map Region rows = List.map fst App.REGIONS /\
                List.length rows = List.length App.REGIONS /\
                NoDup (List.map Region rows)) /\
  (exists rows, App2.comparison home_price = Ok rows /\
                List.map Region rows = List.map fst App2.REGIONS /\
                List.length rows = List.length App2.REGIONS /\
                NoDup (List.map Region rows)).
Proof.
  split.
  - destruct (app_comparison_loop_regions App.REGIONS home_price []
                app_rates_positive) as [rows [E Hrows]].
    exists rows. cbn [List.map app] in Hrows.
    split; [exact E|]. split; [exact Hrows|]. split.
    + rewrite <- (List.length_map Region rows), Hrows. apply List.length_map.
    + rewrite Hrows. apply app_regions_nodup.
  - destruct (app2_comparison_loop_regions App2.REGIONS home_price []
                app2_rates_positive) as [rows [E Hrows]].
    exists rows. cbn [List.map app] in Hrows.
    split; [exact E|]. split; [exact Hrows|]. split.
    + rewrite <- (List.length_map Region rows), Hrows. apply List.length_map.
    + rewrite Hrows. apply app2_regions_nodup.
Qed.

End Comparison.

(** ** The log-normal helpers on the reals *)

Section Distribution.
Local Open Scope R_scope.

Lemma exp_pow_nat (y : R) (n : nat) : exp y ^ n = exp (INR n * y).
Proof.
  induction n as [|n IH].
  - simpl. rewrite Rmult_0_l, exp_0. reflexivity.
  - rewrite S_INR. simpl pow. rewrite IH, <- exp_plus. f_equal. ring.
Qed.

(** [(1 + y)^n <= exp (n y)]: the bound [1 + y <= exp y], sharpened by
    splitting the exponent in [n] parts. *)
Lemma exp_lower (y : R) (n : nat) :
  0 <= 1 + y -> (1 + y) ^ n <= exp (INR n * y).
Proof.
  intros Hy. rewrite <- exp_pow_nat.
  apply pow_incr. split; [exact Hy | apply exp_ineq1_le].
Qed.

Lemma tanh_exp (t : R) : tanh t = 1 - 2 / (exp (2 * t) + 1).
Proof.
  unfold tanh, sinh, cosh.
  replace (2 * t) with (t + t) by ring.
  rewrite exp_plus, exp_Ropp.
  pose proof (exp_pos t) as Ht.
  field. rnra.
Qed.

Lemma tanh_at_0 : tanh 0 = 0.
Proof. rewrite tanh_exp, Rmult_0_r, exp_0. field. Qed.

Lemma tanh_lt_1 (t : R) : tanh t < 1.
Proof.
  rewrite tanh_exp.
  pose proof (exp_pos (2 * t)) as Ht.
  assert (0 < 2 / (exp (2 * t) + 1)) by (apply Rdiv_lt_0_compat; rlra).
  rlra.
Qed.

Lemma tanh_lower (t b : R) :
  0 < b -> b <= exp (2 * t) -> 1 - 2 / (b + 1) <= tanh t.
Proof.
  intros Hb Hle. rewrite tanh_exp.
  assert (2 / (exp (2 * t) + 1) <= 2 / (b + 1)).
  { unfold Rdiv. apply Rmult_le_compat_l; [rlra|].
    apply Rinv_le_contravar; rlra. }
  rlra.
Qed.

Lemma sqrt2_lower : 1.41 <= sqrt 2.
Proof.
  rewrite <- (sqrt_square 1.41) by rlra.
  apply sqrt_le_1_alt. rlra.
Qed.

Lemma sqrt_2_PI_lower : 0.7 <= sqrt (2 / PI).
Proof.
  rewrite <- (sqrt_square 0.7) by rlra.
  apply sqrt_le_1_alt.
  pose proof PI_4. pose proof PI_RGT_0.
  apply Rle_trans with (2 / 4); [rlra|].
  unfold Rdiv. apply Rmult_le_compat_l; [rlra|].
  apply Rinv_le_contravar; rlra.
Qed.

(** At [income_at k] the variable [z] of [lognorm_cdf] is [k]. *)
Lemma z_at (k : R) : (ln (income_at k) - ln scale) / sigma = k.
Proof.
  unfold income_at, scale. rewrite !ln_exp.
  assert (Hs : sigma <> 0) by (unfold sigma; rlra).
  generalize dependent sigma. intros s Hs. field. exact Hs.
Qed.

Lemma lognorm_cdf_at (k : R) :
  lognorm_cdf (income_at k) sigma scale =
  0.5 * (1 + tanh (sqrt 2 * k / 2) + sqrt (2 / PI) * exp (- k ^ 2 / 2)).
Proof. unfold lognorm_cdf. rewrite z_at. reflexivity. Qed.

Lemma income_at_0 : income_at 0 = scale.
Proof. unfold income_at, scale. f_equal. ring. Qed.

Lemma income_at_increasing (j k : R) : j < k -> income_at j < income_at k.
Proof.
  intros H. unfold income_at. apply exp_increasing.
  unfold sigma. rlra.
Qed.

Lemma exp_minus_half_lower : 0.604 <= exp (- 1 ^ 2 / 2).
Proof.
  replace (- 1 ^ 2 / 2) with (INR 32 * (- 1 / 64)) by (simpl; rlra).
  eapply Rle_trans; [|apply exp_lower; rlra]. rlra.
Qed.

Lemma exp_minus_9_2_upper : exp (- 3 ^ 2 / 2) <= 0.0282.
Proof.
  replace (- 3 ^ 2 / 2) with (- (INR 8 * (4.5 / 8))) by (simpl; rlra).
  rewrite exp_Ropp.
  assert (H : 35.5 <= exp (INR 8 * (4.5 / 8))).
  { eapply Rle_trans; [|apply exp_lower; rlra]. rlra. }
  apply Rle_trans with (/ 35.5); [|rlra].
  apply Rinv_le_contravar; rlra.
Qed.

Lemma tanh_half_sqrt2_lower : 0.6 <= tanh (sqrt 2 * 1 / 2).
Proof.
  apply Rle_trans with (1 - 2 / (4.03 + 1)); [rlra|].
  apply tanh_lower; [rlra|].
  replace (2 * (sqrt 2 * 1 / 2)) with (sqrt 2) by field.
  apply Rle_trans with (exp 1.41).
  - replace 1.41 with (INR 64 * (1.41 / 64)) by (simpl; rlra).
    eapply Rle_trans; [|apply exp_lower; rlra]. rlra.
  - destruct sqrt2_lower as [Hs|Hs].
    + left. now apply exp_increasing.
    + rewrite Hs. right. reflexivity.
Qed.

(** C1, on the code.  At x = scale the function [lognorm_cdf] of the scripts
    returns 0.5 * (1 + sqrt (2 / pi)), which is at least 0.85: it is not within
    1e-3 of the value 0.5 that the log-normal distribution function takes at
    its median. *)
Theorem lognorm_cdf_at_scale :
  lognorm_cdf scale sigma scale = 0.5 * (1 + sqrt (2 / PI)) /\
  0.85 <= lognorm_cdf scale sigma scale /\
  0.001 < Rabs (lognorm_cdf scale sigma scale - 0.5).
Proof.
  assert (E : lognorm_cdf scale sigma scale = 0.5 * (1 + sqrt (2 / PI))).
  { rewrite <- income_at_0 at 1. rewrite lognorm_cdf_at.
    replace (sqrt 2 * 0 / 2) with 0 by field.
    replace (- 0 ^ 2 / 2) with 0 by field.
    rewrite tanh_at_0, exp_0. ring. }
  pose proof sqrt_2_PI_lower as Hc.
  split; [exact E|]. rewrite E. split; [rlra|].
  rewrite Rabs_pos_eq; rlra.
Qed.

(** C2, on the code.  Between the incomes x1 = income_at 1 (about 89 000) and
    x2 = income_at 3 (about 597 000) the function [lognorm_cdf] of the scripts
    decreases, so [prob_affordable] increases with the required income; at x1
    it exceeds 1, so [prob_affordable] is negative there. *)
Theorem lognorm_cdf_not_monotone :
  0 < income_at 1 <= income_at 3 /\
  lognorm_cdf (income_at 3) sigma scale < lognorm_cdf (income_at 1) sigma scale /\
  prob_affordable (income_at 1) < prob_affordable (income_at 3) /\
  prob_affordable (income_at 1) < 0.
Proof.
  assert (Hlt : lognorm_cdf (income_at 3) sigma scale
                < lognorm_cdf (income_at 1) sigma scale).
  { rewrite !lognorm_cdf_at.
    pose proof tanh_half_sqrt2_lower. pose proof exp_minus_half_lower.
    pose proof exp_minus_9_2_upper. pose proof sqrt_2_PI_lower.
    pose proof (tanh_lt_1 (sqrt 2 * 3 / 2)).
    rnra. }
  assert (Hgt : 1 < lognorm_cdf (income_at 1) sigma scale).
  { rewrite lognorm_cdf_at.
    pose proof tanh_half_sqrt2_lower. pose proof exp_minus_half_lower.
    pose proof sqrt_2_PI_lower.
    rnra. }
  split.
  - split; [apply exp_pos|]. left. apply income_at_increasing. rlra.
  - split; [exact Hlt|]. unfold prob_affordable. split; rlra.
Qed.

End Distribution.

(** ** The annuity form of the payment factor *)

Section Annuity.
Import Py.
Local Open Scope Q_scope.












End Annuity.

(** ** The mortgage calculator: rate, amortization, bounds, scaling *)

Section CalculatorMore.
Import Py.
Local Open Scope Q_scope.



Lemma income_formula_loan (price d r : Q) (a : Z) :
  0 < r -> (0 < a)%Z ->
  income_formula price d r a == price * (1 - d) * income_factor r a.
Proof.
  intros Hr Ha. pose proof (growth_gt_1 r a Hr Ha) as Hg.
  rewrite income_formula_factor by qlra. unfold App.loan_of. ring.
Qed.







(** X4.  The income needed scales with the price: on every input, multiplying
    the price by [c] multiplies the result by [c], and raises in the same
    cases. *)
Theorem income_scales_with_price (c price d r : Q) (a : Z) :
  agree (App.calculate_max_affordable (c * price) d r a)
        (map (Qmult c) (App.calculate_max_affordable price d r a)).
Proof.
  unfold App.calculate_max_affordable, App.n_payments_of, App.loan_of,
    App.monthly_rate_of.
  destruct (truediv r 12) as [m|e]; cbn [bind map agree]; [|reflexivity].
  destruct (pow (1 + m) (a * 12)) as [g|e]; cbn [bind map agree];
    [|reflexivity].
  unfold truediv at 1 3.
  destruct (Qeq_bool (g - 1) 0) eqn:Eg; cbn [bind map agree]; [reflexivity|].
  apply Qeq_bool_neq in Eg.
  rewrite !(truediv_ok _ _ ratio_neq_0). cbn [bind map agree].
  field. exact Eg.
Qed.

End CalculatorMore.

(** ** More on the log-normal helpers *)

Section DistributionMore.
Local Open Scope R_scope.

Lemma tanh_gt_m1 (t : R) : -1 < tanh t.
Proof.
  rewrite tanh_exp.
  pose proof (exp_pos (2 * t)) as Ht.
  assert (2 / (exp (2 * t) + 1) < 2).
  { apply Rmult_lt_reg_r with (exp (2 * t) + 1); [rlra|].
    unfold Rdiv. rewrite Rmult_assoc, Rinv_l by rlra. rlra. }
  rlra.
Qed.

Lemma tanh_le (a b : R) : a <= b -> tanh a <= tanh b.
Proof.
  intros Hab. rewrite (tanh_exp a).
  apply tanh_lower; [apply exp_pos|].
  destruct Hab as [Hab | ->]; [left; apply exp_increasing; rlra | right; reflexivity].
Qed.

Lemma tanh_opp (t : R) : tanh (- t) = - tanh t.
Proof.
  rewrite !tanh_exp.
  replace (2 * - t) with (- (2 * t)) by ring.
  rewrite exp_Ropp.
  pose proof (exp_pos (2 * t)) as Ht.
  field. split; rlra.
Qed.

Lemma exp_le (a b : R) : a <= b -> exp a <= exp b.
Proof.
  intros [H| ->]; [left; now apply exp_increasing | right; reflexivity].
Qed.

Lemma sqrt_2_PI_bounds : 0 < sqrt (2 / PI) < 1.
Proof.
  pose proof PI2_1 as Hpi. pose proof PI_RGT_0 as Hp.
  assert (H2 : 0 < 2 / PI) by (apply Rdiv_lt_0_compat; rlra).
  split; [now apply sqrt_lt_R0|].
  rewrite <- sqrt_1. apply sqrt_lt_1_alt. split; [rlra|].
  apply Rmult_lt_reg_r with PI; [exact Hp|].
  unfold Rdiv. rewrite Rmult_assoc, Rinv_l by rlra. rlra.
Qed.

Lemma z_le (x1 x2 s scale : R) :
  0 < x1 -> x1 <= x2 -> 0 < s ->
  (ln x1 - ln scale) / s <= (ln x2 - ln scale) / s.
Proof.
  intros H1 H12 Hs.
  assert (Hl : ln x1 <= ln x2).
  { destruct H12 as [H| ->]; [left; now apply ln_increasing | right; reflexivity]. }
  unfold Rdiv. apply Rmult_le_compat_r; [left; now apply Rinv_0_lt_compat | rlra].
Qed.

Lemma z_nonpos (x s scale : R) :
  0 < x -> x <= scale -> 0 < s -> (ln x - ln scale) / s <= 0.
Proof.
  intros Hx Hle Hs.
  replace 0 with ((ln scale - ln scale) / s) by (unfold Rdiv; ring).
  now apply z_le.
Qed.

Lemma pdf_pos (x s scale : R) : 0 < x -> 0 < s -> 0 < lognorm_pdf x s scale.
Proof.
  intros Hx Hs. unfold lognorm_pdf.
  apply Rmult_lt_0_compat; [|apply exp_pos].
  apply Rdiv_lt_0_compat; [rlra|].
  apply Rmult_lt_0_compat; [now apply Rmult_lt_0_compat|].
  apply sqrt_lt_R0. pose proof PI_RGT_0. rlra.
Qed.



Lemma lognorm_pdf_exp (x s scale : R) :
  0 < x -> 0 < s ->
  lognorm_pdf x s scale =
  1 / (s * sqrt (2 * PI)) *
  exp (- ln x - (ln x - ln scale) ^ 2 / (2 * s ^ 2)).
Proof.
  intros Hx Hs. unfold lognorm_pdf.
  replace (- ln x - (ln x - ln scale) ^ 2 / (2 * s ^ 2))
    with (- ln x + - (ln x - ln scale) ^ 2 / (2 * s ^ 2))
    by (unfold Rdiv, Rminus; ring).
  rewrite exp_plus, exp_Ropp, exp_ln by exact Hx.
  assert (Hq : 0 < sqrt (2 * PI)).
  { apply sqrt_lt_R0. pose proof PI_RGT_0. rlra. }
  field. repeat split; rlra.
Qed.

(** X6.  The density peaks at [scale * exp (- s^2)]: no positive income has a
    higher density. *)
Theorem lognorm_pdf_mode (x s scale : R) :
  0 < x -> 0 < s -> 0 < scale ->
  lognorm_pdf x s scale <= lognorm_pdf (scale * exp (- s ^ 2)) s scale.
Proof.
  intros Hx Hs Hsc.
  assert (Hm : 0 < scale * exp (- s ^ 2))
    by (apply Rmult_lt_0_compat; [exact Hsc | apply exp_pos]).
  rewrite (lognorm_pdf_exp x s scale Hx Hs).
  rewrite (lognorm_pdf_exp _ s scale Hm Hs).
  rewrite (ln_mult _ _ Hsc (exp_pos _)), ln_exp.
  assert (Hq : 0 < sqrt (2 * PI)).
  { apply sqrt_lt_R0. pose proof PI_RGT_0. rlra. }
  apply Rmult_le_compat_l.
  - left. apply Rdiv_lt_0_compat; [rlra|]. now apply Rmult_lt_0_compat.
  - apply exp_le.
    set (u := ln x). set (m := ln scale).
    assert (E : - (m + - s ^ 2) - (m + - s ^ 2 - m) ^ 2 / (2 * s ^ 2)
                - (- u - (u - m) ^ 2 / (2 * s ^ 2))
                = (u - m + s ^ 2) ^ 2 / (2 * s ^ 2)) by (field; rlra).
    assert (0 <= (u - m + s ^ 2) ^ 2 / (2 * s ^ 2)).
    { unfold Rdiv. apply Rmult_le_pos; [apply pow2_ge_0|].
      left. apply Rinv_0_lt_compat. rnra. }
    rlra.
Qed.

Lemma lognorm_pdf_mode_witness :
  lognorm_pdf 1 sigma scale <= lognorm_pdf (scale * exp (- sigma ^ 2)) sigma scale.
Proof.
  apply (lognorm_pdf_mode 1 sigma scale).
  - rlra.
  - unfold sigma; rlra.
  - apply exp_pos.
Defined.

(** X7.  At every positive income [lognorm_cdf] lies strictly between 0 and
    1.5, so [prob_affordable] lies strictly between -0.5 and 1. *)
Theorem lognorm_cdf_bounds (x : R) :
  0 < x ->
  0 < lognorm_cdf x sigma scale < 1.5 /\ -0.5 < prob_affordable x < 1.
Proof.
  intros _.
  assert (H : 0 < lognorm_cdf x sigma scale < 1.5).
  { unfold lognorm_cdf.
    set (z := (ln x - ln scale) / sigma).
    pose proof (tanh_gt_m1 (sqrt 2 * z / 2)) as Hl.
    pose proof (tanh_lt_1 (sqrt 2 * z / 2)) as Hu.
    pose proof sqrt_2_PI_bounds as [Hc0 Hc1].
    pose proof (exp_pos (- z ^ 2 / 2)) as He0.
    assert (He1 : exp (- z ^ 2 / 2) <= 1).
    { rewrite <- exp_0. apply exp_le. pose proof (pow2_ge_0 z). rlra. }
    split; rnra. }
  split; [exact H|]. unfold prob_affordable. rlra.
Qed.

Lemma lognorm_cdf_bounds_witness :
  0 < lognorm_cdf 170000 sigma scale < 1.5 /\ -0.5 < prob_affordable 170000 < 1.
Proof. apply (lognorm_cdf_bounds 170000). rlra. Defined.

(** The median is above 30000. *)
Lemma scale_lower : 30000 <= scale.
Proof.
  unfold scale, mu.
  replace 10.45 with (INR 1024 * (10.45 / 1024)).
  - eapply Rle_trans; [|apply exp_lower; rlra]. rlra.
  - rewrite INR_IZR_INZ. change (Z.of_nat 1024) with 1024%Z. rlra.
Qed.

(** X8.  Up to the median [scale] the function [lognorm_cdf] is
    non-decreasing, so the share of an income range that ends at or below the
    median is not negative. *)
Theorem lognorm_cdf_monotone_below_median (x1 x2 : R) :
  0 < x1 -> x1 <= x2 -> x2 <= scale ->
  lognorm_cdf x1 sigma scale <= lognorm_cdf x2 sigma scale /\
  0 <= range_prob x1 x2.
Proof.
  intros H1 H12 H2.
  assert (Hs : 0 < sigma) by (unfold sigma; rlra).
  assert (H : lognorm_cdf x1 sigma scale <= lognorm_cdf x2 sigma scale).
  { unfold lognorm_cdf.
    pose proof (z_le x1 x2 sigma scale H1 H12 Hs) as Hz.
    pose proof (z_nonpos x2 sigma scale ltac:(rlra) H2 Hs) as Hz2.
    set (z1 := (ln x1 - ln scale) / sigma) in *.
    set (z2 := (ln x2 - ln scale) / sigma) in *.
    assert (Ht : tanh (sqrt 2 * z1 / 2) <= tanh (sqrt 2 * z2 / 2)).
    { apply tanh_le. pose proof sqrt2_lower. rnra. }
    assert (He : exp (- z1 ^ 2 / 2) <= exp (- z2 ^ 2 / 2)).
    { apply exp_le. rnra. }
    pose proof sqrt_2_PI_bounds as [Hc0 _].
    assert (sqrt (2 / PI) * exp (- z1 ^ 2 / 2)
            <= sqrt (2 / PI) * exp (- z2 ^ 2 / 2))
      by (apply Rmult_le_compat_l; rlra).
    rlra. }
  split; [exact H|]. unfold range_prob. rlra.
Qed.

Lemma lognorm_cdf_monotone_below_median_witness :
  lognorm_cdf 5000 sigma scale <= lognorm_cdf 30000 sigma scale /\
  0 <= range_prob 5000 30000.
Proof.
  apply (lognorm_cdf_monotone_below_median 5000 30000).
  - rlra.
  - rlra.
  - exact scale_lower.
Defined.

(** X9.  Reflecting an income about the median on the log scale: the two
    values of [lognorm_cdf] add up to 1 plus sqrt (2/pi) * exp (- z^2 / 2),
    more than the 1 of a distribution function. *)
Theorem lognorm_cdf_reflection (x s scale : R) :
  0 < x -> 0 < s -> 0 < scale ->
  lognorm_cdf x s scale + lognorm_cdf (scale * scale / x) s scale =
  1 + sqrt (2 / PI) * exp (- ((ln x - ln scale) / s) ^ 2 / 2) /\
  1 < lognorm_cdf x s scale + lognorm_cdf (scale * scale / x) s scale.
Proof.
  intros Hx Hs Hsc.
  assert (E : lognorm_cdf x s scale + lognorm_cdf (scale * scale / x) s scale =
              1 + sqrt (2 / PI) * exp (- ((ln x - ln scale) / s) ^ 2 / 2)).
  { unfold lognorm_cdf.
    assert (Ez : (ln (scale * scale / x) - ln scale) / s
                 = - ((ln x - ln scale) / s)).
    { assert (El : ln (scale * scale / x) = ln scale + ln scale - ln x).
      { unfold Rdiv.
        rewrite ln_mult, ln_mult, ln_Rinv; try assumption.
        - ring.
        - now apply Rmult_lt_0_compat.
        - now apply Rinv_0_lt_compat. }
      rewrite El. field. rlra. }
    rewrite Ez.
    set (z := (ln x - ln scale) / s).
    replace (sqrt 2 * - z / 2) with (- (sqrt 2 * z / 2)) by field.
    rewrite tanh_opp.
    replace (- (- z) ^ 2 / 2) with (- z ^ 2 / 2) by field.
    rlra. }
  split; [exact E|]. rewrite E.
  pose proof sqrt_2_PI_bounds as [Hc0 _].
  pose proof (exp_pos (- ((ln x - ln scale) / s) ^ 2 / 2)).
  assert (0 < sqrt (2 / PI) * exp (- ((ln x - ln scale) / s) ^ 2 / 2))
    by (now apply Rmult_lt_0_compat).
  rlra.
Qed.

Lemma lognorm_cdf_reflection_witness :
  lognorm_cdf 1 1 1 + lognorm_cdf (1 * 1 / 1) 1 1 =
  1 + sqrt (2 / PI) * exp (- ((ln 1 - ln 1) / 1) ^ 2 / 2) /\
  1 < lognorm_cdf 1 1 1 + lognorm_cdf (1 * 1 / 1) 1 1.
Proof. apply (lognorm_cdf_reflection 1 1 1); rlra. Defined.

End DistributionMore.

Section Lookup.

Lemma getitem_in (table : list (string * region_data)) (region : string) :
  In region (keys table) ->
  exists data, getitem table region = Some data /\ In (region, data) table.
Proof.
  induction table as [|[k v] rest IH]; cbn [keys List.map In getitem fst].
  - intros [].
  - intros Hin. destruct (String.eqb_spec region k) as [->|Hne].
    + exists v. split; [reflexivity | now left].
    + destruct Hin as [E|Hin]; [congruence|].
      destruct (IH Hin) as [data [E Hd]].
      exists data. split; [exact E | now right].
Qed.

Lemma getitem_not_in (table : list (string * region_data)) (region : string) :
  ~ In region (keys table) -> getitem table region = None.
Proof.
  induction table as [|[k v] rest IH]; cbn [keys List.map In getitem fst].
  - reflexivity.
  - intros Hn. destruct (String.eqb_spec region k) as [->|Hne].
    + exfalso. apply Hn. now left.
    + apply IH. intros H. apply Hn. now right.
Qed.

Lemma getitem_of_item (table : list (string * region_data))
    (region : string) (data : region_data) :
  NoDup (keys table) -> In (region, data) table ->
  getitem table region = Some data.
Proof.
  induction table as [|[k v] rest IH]; cbn [keys List.map In getitem fst].
  - intros _ [].
  - intros Hnd Hin. inversion Hnd as [|? ? Hk Hrest]; subst.
    destruct Hin as [E|Hin].
    + injection E as -> ->. now rewrite String.eqb_refl.
    + destruct (String.eqb_spec region k) as [->|Hne].
      * exfalso. apply Hk. change (In (fst (k, data)) (List.map fst rest)).
        now apply in_map.
      * now apply IH.
Qed.

End Lookup.

(** ** The results panel and the comparison table *)

Section Page.
Import Py.
Local Open Scope Q_scope.

Lemma app_page_results (home_price : Q) (region : string) (ftb : bool) :
  AppPage.home_affordability home_price region ftb
  = results_for App.REGIONS home_price region ftb.
Proof. reflexivity. Qed.

Lemma app2_page_results (home_price : Q) (region : string) (ftb : bool) :
  App2Page.home_affordability home_price region ftb
  = results_for App2.REGIONS home_price region ftb.
Proof.
  unfold App2Page.home_affordability, results_for.
  destruct (getitem App2.REGIONS region) as [data|]; [|reflexivity].
  rewrite app2_as_app. unfold App2.default_amortization.
  destruct (App.calculate_max_affordable _ _ _ 25) as [v|e]; reflexivity.
Qed.

Lemma app_rules_valid : rules_valid App.REGIONS.
Proof.
  unfold rules_valid, App.REGIONS.
  repeat (constructor; [repeat split; cbn; try reflexivity; discriminate|]).
  constructor.
Qed.

Lemma app2_rules_valid : rules_valid App2.REGIONS.
Proof.
  unfold rules_valid, App2.REGIONS.
  repeat (constructor; [repeat split; cbn; try reflexivity; discriminate|]).
  constructor.
Qed.

Lemma income_formula_pos (price d r : Q) (a : Z) :
  0 < price -> d < 1 -> 0 < r -> (0 < a)%Z -> 0 < income_formula price d r a.
Proof.
  intros Hp Hd Hr Ha. rewrite income_formula_loan by assumption.
  apply Qmult_lt_0_compat; [|now apply income_factor_pos].
  apply Qmult_lt_0_compat; qlra.
Qed.

Lemma prob_affordable_lt_1 (x : R) : (prob_affordable x < 1)%R.
Proof.
  unfold prob_affordable, lognorm_cdf.
  set (z := ((ln x - ln scale) / sigma)%R).
  pose proof (tanh_gt_m1 (sqrt 2 * z / 2)) as Hl.
  pose proof sqrt_2_PI_bounds as [Hc0 _].
  pose proof (exp_pos (- z ^ 2 / 2)) as He0.
  assert (0 < sqrt (2 / PI) * exp (- z ^ 2 / 2))%R
    by (now apply Rmult_lt_0_compat).
  rlra.
Qed.

(** What the panel shows for a rule of the table. *)
Lemma results_for_listed (table : list (string * region_data))
    (home_price : Q) (region : string) (ftb : bool) (data : region_data) :
  rules_valid table -> getitem table region = Some data ->
  In (region, data) table ->
  let pct := if ftb then first_time data else down_payment data in
  let income := income_formula home_price pct (rate data) 25 in
  let prob := prob_affordable (Q2R income) in
  rule_valid data /\
  results_for table home_price region ftb
  = Shown (mk_affordability income (home_price * pct) prob
             (prob * IZR (pop data))%R (prob * 100)%R).
Proof.
  intros Hv Hget Hin pct income prob.
  assert (Hd : rule_valid data).
  { unfold rules_valid in Hv. rewrite Forall_forall in Hv.
    apply (Hv (region, data) Hin). }
  split; [exact Hd|].
  destruct Hd as [[Hr _] _].
  unfold results_for. rewrite Hget.
  fold pct. rewrite (calculate_positive home_price pct (rate data) 25 Hr)
    by reflexivity.
  reflexivity.
Qed.

Lemma results_for_ok (table : list (string * region_data))
    (home_price : Q) (region : string) (ftb : bool) :
  rules_valid table -> 0 < home_price -> In region (keys table) ->
  exists data res,
    getitem table region = Some data /\
    results_for table home_price region ftb = Shown res /\
    panel_ok home_price data ftb res.
Proof.
  intros Hv Hp Hin.
  destruct (getitem_in table region Hin) as [data [Hget Hd]].
  destruct (results_for_listed table home_price region ftb data Hv Hget Hd)
    as [[[Hr [[Hf0 Hfd] Hd1]] Hpop] E].
  exists data. eexists. split; [exact Hget|]. split; [exact E|].
  unfold panel_ok; cbn [max_income_needed down_payment_amount
                         people_affordable percent_affordable].
  split; [|split; [reflexivity|]].
  - apply income_formula_pos; try assumption; [|reflexivity].
    destruct ftb; qlra.
  - set (prob := prob_affordable _).
    pose proof (prob_affordable_lt_1
                  (Q2R (income_formula home_price
                          (if ftb then first_time data else down_payment data)
                          (rate data) 25))) as H1.
    fold prob in H1.
    assert (Hz : (0 < IZR (pop data))%R) by (apply IZR_lt; exact Hpop).
    split; [|rlra].
    assert (0 < (1 - prob) * IZR (pop data))%R
      by (apply Rmult_lt_0_compat; rlra).
    rlra.
Qed.

Lemma results_for_missing (table : list (string * region_data))
    (home_price : Q) (region : string) (ftb : bool) :
  ~ In region (keys table) ->
  results_for table home_price region ftb = Stopped (KeyError region).
Proof.
  intros Hn. unfold results_for. now rewrite (getitem_not_in table region Hn).
Qed.

(** X10.  For a positive price and a region of the select box, the panel of
    each script raises nothing; the income needed is positive, the down
    payment is the chosen fraction of the price, and the number and the
    percentage of people who can afford the home stay below the population
    and below 100.  A region that is not a key of [REGIONS] stops the page
    with a [KeyError]. *)
Theorem panel_on_region (home_price : Q) (region : string) (ftb : bool) :
  0 < home_price ->
  (In region (keys App.REGIONS) ->
   exists data res,
     getitem App.REGIONS region = Some data /\
     AppPage.home_affordability home_price region ftb = Shown res /\
     panel_ok home_price data ftb res) /\
  (In region (keys App2.REGIONS) ->
   exists data res,
     getitem App2.REGIONS region = Some data /\
     App2Page.home_affordability home_price region ftb = Shown res /\
     panel_ok home_price data ftb res) /\
  (~ In region (keys App.REGIONS) ->
   AppPage.home_affordability home_price region ftb
   = Stopped (KeyError region)) /\
  (~ In region (keys App2.REGIONS) ->
   App2Page.home_affordability home_price region ftb
   = Stopped (KeyError region)).
Proof.
  intros Hp. rewrite app_page_results, app2_page_results.
  split; [|split; [|split]].
  - now apply results_for_ok; [apply app_rules_valid|].
  - now apply results_for_ok; [apply app2_rules_valid|].
  - apply results_for_missing.
  - apply results_for_missing.
Qed.

Lemma panel_on_region_witness :
  (exists data res,
     getitem App.REGIONS "Quebec" = Some data /\
     AppPage.home_affordability 800000 "Quebec" true = Shown res /\
     panel_ok 800000 data true res) /\
  AppPage.home_affordability 800000 "Yukon" true = Stopped (KeyError "Yukon").
Proof.
  split.
  - refine (proj1 (panel_on_region 800000 "Quebec" true eq_refl) _).
    cbn. tauto.
  - refine (proj1 (proj2 (proj2 (panel_on_region 800000 "Yukon" true eq_refl)))
              _).
    cbn. intuition discriminate.
Defined.

(** X11.  Ticking "First Time Buyer" never lowers the income needed and never
    raises the down payment, in any region of either script. *)
Theorem first_time_buyer_flag (home_price : Q) (region : string) :
  0 < home_price ->
  (In region (keys App.REGIONS) ->
   exists first other,
     AppPage.home_affordability home_price region true = Shown first /\
     AppPage.home_affordability home_price region false = Shown other /\
     max_income_needed other <= max_income_needed first /\
     down_payment_amount first <= down_payment_amount other) /\
  (In region (keys App2.REGIONS) ->
   exists first other,
     App2Page.home_affordability home_price region true = Shown first /\
     App2Page.home_affordability home_price region false = Shown other /\
     max_income_needed other <= max_income_needed first /\
     down_payment_amount first <= down_payment_amount other).
Proof.
  intros Hp.
  assert (G : forall table, rules_valid table -> In region (keys table) ->
    exists first other,
      results_for table home_price region true = Shown first /\
      results_for table home_price region false = Shown other /\
      max_income_needed other <= max_income_needed first /\
      down_payment_amount first <= down_payment_amount other).
  { intros table Hv Hin.
    destruct (getitem_in table region Hin) as [data [Hget Hd]].
    destruct (results_for_listed table home_price region true data Hv Hget Hd)
      as [[[Hr [[Hf0 Hfd] Hd1]] Hpop] E1].
    destruct (results_for_listed table home_price region false data Hv Hget Hd)
      as [_ E0].
    eexists. eexists. split; [exact E1|]. split; [exact E0|].
    cbn [max_income_needed down_payment_amount].
    pose proof (income_factor_pos (rate data) 25 Hr eq_refl) as Hk.
    split.
    - rewrite !income_formula_loan by (assumption || reflexivity).
      apply Qmult_le_compat_r; [|qlra].
      assert (0 <= home_price * (down_payment data - first_time data))
        by (apply Qmult_le_0_compat; qlra).
      qlra.
    - assert (0 <= home_price * (down_payment data - first_time data))
        by (apply Qmult_le_0_compat; qlra).
      qlra. }
  rewrite !app_page_results, !app2_page_results.
  split; intros Hin; apply G; (apply app_rules_valid || apply app2_rules_valid
                               || exact Hin).
Qed.

Lemma first_time_buyer_flag_witness :
  exists first other,
    AppPage.home_affordability 800000 "Quebec" true = Shown first /\
    AppPage.home_affordability 800000 "Quebec" false = Shown other /\
    max_income_needed other <= max_income_needed first /\
    down_payment_amount first <= down_payment_amount other.
Proof.
  refine (proj1 (first_time_buyer_flag 800000 "Quebec" eq_refl) _).
  cbn. tauto.
Defined.

Lemma app_comparison_loop_rows (items : list (string * region_data))
    (home_price : Q) (acc : list comparison_row) :
  rates_positive items ->
  App.comparison_loop items home_price acc
  = Ok (acc ++ List.map (AppPage.row_of home_price) items).
Proof.
  intros Hpos. revert acc.
  induction Hpos as [|[region data] rest Hr _ IH]; intros acc.
  - cbn. now rewrite app_nil_r.
  - cbn [App.comparison_loop]. simpl in Hr.
    rewrite (calculate_positive home_price (first_time data) (rate data)
               App.default_amortization Hr) by reflexivity.
    cbn [bind]. rewrite IH, <- app_assoc. reflexivity.
Qed.

Lemma app2_comparison_loop_rows (items : list (string * region_data))
    (home_price : Q) (acc : list comparison_row) :
  rates_positive items ->
  App2.comparison_loop items home_price acc
  = Ok (acc ++ List.map (AppPage.row_of home_price) items).
Proof.
  intros Hpos. revert acc.
  induction Hpos as [|[region data] rest Hr _ IH]; intros acc.
  - cbn. now rewrite app_nil_r.
  - cbn [App2.comparison_loop]. simpl in Hr.
    rewrite app2_as_app.
    rewrite (calculate_positive home_price (first_time data) (rate data)
               App2.default_amortization Hr) by reflexivity.
    cbn [bind map fst]. rewrite IH, <- app_assoc. reflexivity.
Qed.

Lemma rows_match_results (table : list (string * region_data))
    (home_price : Q) :
  rules_valid table -> NoDup (keys table) ->
  Forall (fun row => exists res,
            results_for table home_price (Region row) true = Shown res /\
            row_matches row res)
         (List.map (AppPage.row_of home_price) table).
Proof.
  intros Hv Hnd. rewrite Forall_map, Forall_forall.
  intros [region data] Hin.
  pose proof (getitem_of_item table region data Hnd Hin) as Hget.
  destruct (results_for_listed table home_price region true data Hv Hget Hin)
    as [_ E].
  eexists. split; [exact E|].
  unfold row_matches. cbn. repeat split; reflexivity.
Qed.

(** X12.  Each row of the comparison table carries the numbers the results
    panel shows for that region with "First Time Buyer" ticked, whatever the
    state of the check box, in both scripts. *)
Theorem comparison_rows_match_panel (home_price : Q) :
  (exists rows,
     App.comparison_data home_price = Ok rows /\
     Forall (fun row => exists res,
               AppPage.home_affordability home_price (Region row) true
               = Shown res /\ row_matches row res) rows) /\
  (exists rows,
     App2.comparison home_price = Ok rows /\
     Forall (fun row => exists res,
               App2Page.home_affordability home_price (Region row) true
               = Shown res /\ row_matches row res) rows).
Proof.
  split.
  - exists (List.map (AppPage.row_of home_price) App.REGIONS).
    split.
    { unfold App.comparison_data.
      now rewrite (app_comparison_loop_rows _ _ [] app_rates_positive). }
    apply (rows_match_results App.REGIONS home_price app_rules_valid
             app_regions_nodup).
  - exists (List.map (AppPage.row_of home_price) App2.REGIONS).
    split.
    { unfold App2.comparison.
      now rewrite (app2_comparison_loop_rows _ _ [] app2_rates_positive). }
    pose proof (rows_match_results App2.REGIONS home_price app2_rules_valid
                  app2_regions_nodup) as H.
    eapply Forall_impl; [|exact H].
    intros row [res [E Hm]]. exists res. now rewrite app2_page_results.
Qed.

End Page.

(** ** The income grid and the scaled density of the charts *)

Section Grid.
Local Open Scope Q_scope.

Lemma linspace_length (start stop : Q) (num : nat) :
  List.length (linspace start stop num) = num.
Proof.
  destruct num as [|[|div]]; [reflexivity | reflexivity |].
  unfold linspace.
  rewrite length_app, length_map, length_seq. cbn. lia.
Qed.

Lemma linspace_bounds (start stop : Q) (num : nat) :
  start <= stop ->
  Forall (fun x => start <= x <= stop) (linspace start stop num).
Proof.
  intros Hle. destruct num as [|[|div]].
  - constructor.
  - constructor; [split; [apply Qle_refl | exact Hle] | constructor].
  - unfold linspace.
    set (n := S div).
    set (step := (stop - start) / inject_Z (Z.of_nat n)).
    assert (Hn : 0 < inject_Z (Z.of_nat n)).
    { change 0 with (inject_Z 0). rewrite <- Zlt_Qlt. unfold n. lia. }
    assert (Hstep : 0 <= step).
    { unfold step. apply Qle_shift_div_l; [exact Hn | qlra]. }
    assert (Hfull : inject_Z (Z.of_nat n) * step == stop - start).
    { unfold step. field. qlra. }
    apply Forall_app. split.
    + rewrite Forall_map, Forall_forall. intros i Hi.
      apply in_seq in Hi.
      assert (Hi0 : 0 <= inject_Z (Z.of_nat i)).
      { change 0 with (inject_Z 0). rewrite <- Zle_Qle. lia. }
      assert (Hin : inject_Z (Z.of_nat i) <= inject_Z (Z.of_nat n)).
      { rewrite <- Zle_Qle. lia. }
      assert (H1 : 0 <= inject_Z (Z.of_nat i) * step)
        by (apply Qmult_le_0_compat; assumption).
      assert (H2 : 0 <= (inject_Z (Z.of_nat n) - inject_Z (Z.of_nat i)) * step)
        by (apply Qmult_le_0_compat; [qlra | assumption]).
      split; qlra.
    + constructor; [split; [exact Hle | apply Qle_refl] | constructor].
Qed.

Lemma fold_left_Rmax_ge (rest : list R) (x : R) :
  (x <= fold_left Rmax rest x)%R /\
  Forall (fun y => (y <= fold_left Rmax rest x)%R) rest.
Proof.
  revert x. induction rest as [|y rest IH]; intros x; cbn [fold_left].
  - split; [apply Rle_refl | constructor].
  - destruct (IH (Rmax x y)) as [Hm Hrest].
    split; [eapply Rle_trans; [apply Rmax_l | exact Hm]|].
    constructor; [eapply Rle_trans; [apply Rmax_r | exact Hm] | exact Hrest].
Qed.

Lemma fold_left_Rmax_in (rest : list R) (x : R) :
  In (fold_left Rmax rest x) (x :: rest).
Proof.
  revert x. induction rest as [|y rest IH]; intros x; cbn [fold_left].
  - now left.
  - destruct (IH (Rmax x y)) as [E|Hin].
    + rewrite <- E. unfold Rmax. destruct (Rle_dec x y); [right | ]; now left.
    + right. now right.
Qed.

(** Dividing positive values by their maximum and multiplying by [height]:
    every value lands in (0, height] and the maximum lands on [height]. *)
Lemma scale_to_peak_spec (pdf : list R) (height : R) :
  pdf <> [] -> Forall (fun p => (0 < p)%R) pdf -> (0 < height)%R ->
  exists ys, scale_to_peak pdf height = Some ys /\
             List.length ys = List.length pdf /\
             Forall (fun y => (0 < y <= height)%R) ys /\
             In height ys.
Proof.
  intros Hne Hpos Hh. destruct pdf as [|x rest]; [congruence|].
  unfold scale_to_peak, np_max.
  set (m := fold_left Rmax rest x).
  destruct (fold_left_Rmax_ge rest x) as [Hx Hrest]. fold m in Hx, Hrest.
  pose proof (fold_left_Rmax_in rest x) as Hin. fold m in Hin.
  assert (Hall : Forall (fun y => (y <= m)%R) (x :: rest))
    by (constructor; assumption).
  assert (Hm : (0 < m)%R).
  { rewrite Forall_forall in Hpos. now apply Hpos. }
  eexists. split; [reflexivity|]. split; [apply length_map|]. split.
  - rewrite Forall_map, Forall_forall. intros p Hp.
    rewrite Forall_forall in Hpos, Hall.
    pose proof (Hpos p Hp) as Hp0. pose proof (Hall p Hp) as Hpm.
    assert (Hq : (0 < p / m <= 1)%R).
    { split; [now apply Rdiv_lt_0_compat|].
      apply Rmult_le_reg_r with m; [exact Hm|].
      unfold Rdiv. rewrite Rmult_assoc, Rinv_l by rlra. rlra. }
    split; [apply Rmult_lt_0_compat; [apply Hq | exact Hh]|].
    rnra.
  - apply in_map_iff. exists m. split; [|exact Hin].
    unfold Rdiv. rewrite Rinv_r by rlra. ring.
Qed.

Lemma grid_pdf_positive (stop : Q) (num : nat) :
  1 <= stop ->
  Forall (fun p => (0 < p)%R)
    (List.map (fun x => lognorm_pdf (Q2R x) sigma scale)
       (linspace 1 stop num)).
Proof.
  intros Hs. rewrite Forall_map.
  eapply Forall_impl; [|apply (linspace_bounds 1 stop num Hs)].
  intros x [Hx _]. cbv beta.
  apply pdf_pos; [|unfold sigma; rlra].
  rewrite <- RMicromega.Q2R_0. apply Qlt_Rlt. qlra.
Qed.

(** X13.  The chart grid of each script has 1000 incomes between 1 and the
    upper end (300000 in app.py, 400000 in app2.py), so the density is
    positive at every grid point and [np.max(pdf)] is not zero; the scaled
    density then has 1000 values in (0, 30] (in (0, 40] in app2.py) and
    reaches the top value. *)
Theorem density_scaled_range :
  (List.length AppPage.income_range = 1000%nat /\
   Forall (fun x => 1 <= x <= 300000) AppPage.income_range /\
   exists ys, AppPage.density_scaled = Some ys /\
              List.length ys = 1000%nat /\
              Forall (fun y => (0 < y <= 30)%R) ys /\
              In 30%R ys) /\
  (List.length App2Page.income_range = 1000%nat /\
   Forall (fun x => 1 <= x <= 400000) App2Page.income_range /\
   exists ys, App2Page.density_scaled = Some ys /\
              List.length ys = 1000%nat /\
              Forall (fun y => (0 < y <= 40)%R) ys /\
              In 40%R ys).
Proof.
  split.
  - split; [apply linspace_length|].
    split; [apply linspace_bounds; discriminate|].
    unfold AppPage.density_scaled, AppPage.pdf, AppPage.income_range.
    destruct (scale_to_peak_spec
                (List.map (fun x => lognorm_pdf (Q2R x) sigma scale)
                   (linspace 1 300000 1000)) 30)
      as [ys [E [Hlen [Hall Hin]]]].
    + intros H. apply (f_equal (@List.length R)) in H.
      rewrite length_map, linspace_length in H. discriminate H.
    + apply grid_pdf_positive. discriminate.
    + rlra.
    + exists ys. rewrite length_map, linspace_length in Hlen. tauto.
  - split; [apply linspace_length|].
    split; [apply linspace_bounds; discriminate|].
    unfold App2Page.density_scaled, App2Page.pdf, App2Page.income_range.
    destruct (scale_to_peak_spec
                (List.map (fun x => lognorm_pdf (Q2R x) sigma scale)
                   (linspace 1 400000 1000)) 40)
      as [ys [E [Hlen [Hall Hin]]]].
    + intros H. apply (f_equal (@List.length R)) in H.
      rewrite length_map, linspace_length in H. discriminate H.
    + apply grid_pdf_positive. discriminate.
    + rlra.
    + exists ys. rewrite length_map, linspace_length in Hlen. tauto.
Qed.

End Grid.
